(** * Signup form validation (src/components/SignupForm.tsx)

    A shallow embedding of the client-side logic of the signup view:
    the derived password criteria, the submit-time validator, the
    edit handler and the disabled condition of the submit button.

    JavaScript strings are sequences of UTF-16 code units; they are
    modelled as lists of [N].  The component state (the two [useState]
    cells) is threaded explicitly through the handlers. *)

From stdpp Require Import gmap list strings.
From Stdlib Require Import NArith Ascii String.

Local Open Scope N_scope.

(** ** JavaScript strings *)

Module JS.

(** A string value: its UTF-16 code units, in order. *)
Abbreviation str := (list N).

(** The code units of an ASCII literal of the source. *)
Definition lit (s : string) : str :=
  N_of_ascii <$> list_ascii_of_string s.

(** [s.length] *)
Definition length (s : str) : nat := List.length s.

(** ToBoolean on a string: only the empty string is falsy. *)
Definition truthy (s : str) : bool :=
  match s with [] => false | _ :: _ => true end.

(** [a !== b] on two strings: they differ as code unit sequences. *)
Definition strict_ne (a b : str) : bool := bool_decide (a ≠ b).

(** ECMAScript WhiteSpace and LineTerminator code points: the set
    removed by [String.prototype.trim] and matched by the class
    escape \s (and excluded by \S). *)
Definition is_space (c : N) : bool :=
  (c =? 0x09) || (c =? 0x0A) || (c =? 0x0B) || (c =? 0x0C) || (c =? 0x0D)
  || (c =? 0x20) || (c =? 0xA0) || (c =? 0x1680)
  || ((0x2000 <=? c) && (c <=? 0x200A))
  || (c =? 0x2028) || (c =? 0x2029) || (c =? 0x202F) || (c =? 0x205F)
  || (c =? 0x3000) || (c =? 0xFEFF).

Fixpoint trimStart (s : str) : str :=
  match s with
  | c :: s' => if is_space c then trimStart s' else s
  | [] => []
  end.

Definition trimEnd (s : str) : str := reverse (trimStart (reverse s)).

(** [s.trim()] *)
Definition trim (s : str) : str := trimEnd (trimStart s).

End JS.

(** ** The regular expressions of the component

    Every pattern of the source is a sequence of one-character atoms,
    some of them under the greedy quantifier [+], used only through
    [RegExp.prototype.test] without flags: the matcher works on code
    units, is unanchored and keeps no state between calls. *)

Module RegExp.

Inductive class_item : Type :=
| CChar (c : N)               (* a member, written plain or escaped *)
| CRange (lo hi : N).         (* lo-hi *)

Inductive atom : Type :=
| Lit (c : N)                 (* a literal character, plain or escaped *)
| Class (items : list class_item)   (* [...] *)
| Digit                       (* \d *)
| NonSpace.                   (* \S *)

Inductive term : Type :=
| One (a : atom)              (* a  *)
| Many (a : atom).            (* a+ *)

Definition pattern := list term.

Definition item_matches (i : class_item) (c : N) : bool :=
  match i with
  | CChar d => c =? d
  | CRange lo hi => (lo <=? c) && (c <=? hi)
  end.

Definition atom_matches (a : atom) (c : N) : bool :=
  match a with
  | Lit d => c =? d
  | Class items => existsb (fun i => item_matches i c) items
  | Digit => (0x30 <=? c) && (c <=? 0x39)
  | NonSpace => negb (JS.is_space c)
  end.

(** Does the pattern match a prefix of the input?  A quantified atom
    first tries to take one more character and falls back to the rest
    of the pattern, as a backtracking matcher does. *)
Fixpoint match_here (p : pattern) : JS.str -> bool :=
  match p with
  | [] => fun _ => true
  | One a :: rest => fun s =>
      match s with
      | c :: s' => atom_matches a c && match_here rest s'
      | [] => false
      end
  | Many a :: rest =>
      fix more (s : JS.str) : bool :=
        match s with
        | c :: s' => atom_matches a c && (more s' || match_here rest s')
        | [] => false
        end
  end.

(** [re.test(s)]: a match starting at some index of [s]. *)
Fixpoint test (p : pattern) (s : JS.str) : bool :=
  match_here p s ||
  match s with
  | _ :: s' => test p s'
  | [] => false
  end.

End RegExp.

Import RegExp.

(** Code unit of an ASCII character of the source text. *)
Definition chr (a : ascii) : N := N_of_ascii a.

(** /[A-Z]/ *)
Definition re_uppercase : pattern :=
  [One (Class [CRange (chr "A") (chr "Z")])].

(** The symbol class of the source, member by member in source order:
    ! @ # $ % ^ & * ( ) _ + \- = \[ \] { } ; ' : (double quote) \\ | , . < > \/ ?
    The double quote is code unit 34 and the backslash code unit 92. *)
Definition re_symbol : pattern :=
  [One (Class [CChar (chr "!"); CChar (chr "@"); CChar (chr "#");
               CChar (chr "$"); CChar (chr "%"); CChar (chr "^");
               CChar (chr "&"); CChar (chr "*"); CChar (chr "(");
               CChar (chr ")"); CChar (chr "_"); CChar (chr "+");
               CChar (chr "-"); CChar (chr "="); CChar (chr "[");
               CChar (chr "]"); CChar (chr "{"); CChar (chr "}");
               CChar (chr ";"); CChar (chr "'"); CChar (chr ":");
               CChar 34; CChar 92; CChar (chr "|");
               CChar (chr ","); CChar (chr "."); CChar (chr "<");
               CChar (chr ">"); CChar (chr "/"); CChar (chr "?")])].

(** /\d/ *)
Definition re_digit : pattern := [One Digit].

(** /\S+@\S+\.\S+/ *)
Definition re_email : pattern :=
  [Many NonSpace; One (Lit (chr "@")); Many NonSpace; One (Lit (chr "."));
   Many NonSpace].

(** ** Data model *)

Record FormData : Type := mkFormData {
  email : JS.str;
  username : JS.str;
  password : JS.str;
  confirmPassword : JS.str;
}.

Record PasswordCriteria : Type := mkPasswordCriteria {
  minLength : bool;
  hasUppercase : bool;
  hasSymbol : bool;
  hasDigit : bool;
  notSameAsUsername : bool;
}.

(** The derived criteria (the first [useMemo]): a function of the
    password and the username of the current form data. *)
Definition passwordCriteria (formData : FormData) : PasswordCriteria :=
  let password := formData.(password) in
  let username := formData.(username) in
  {| minLength := bool_decide (8 <= JS.length password)%nat;
     hasUppercase := test re_uppercase password;
     hasSymbol := test re_symbol password;
     hasDigit := test re_digit password;
     notSameAsUsername :=
       JS.strict_ne password username
       && bool_decide (0 < JS.length password)%nat
       && bool_decide (0 < JS.length username)%nat |}.

(** [Object.values] of a criteria object: its five values in insertion
    order. *)
Definition Object_values (c : PasswordCriteria) : list bool :=
  [c.(minLength); c.(hasUppercase); c.(hasSymbol); c.(hasDigit);
   c.(notSameAsUsername)].

(** The second [useMemo]: every value of the criteria object is true. *)
Definition isPasswordValid (passwordCriteria : PasswordCriteria) : bool :=
  forallb (fun criteria => criteria) (Object_values passwordCriteria).

(** ** Component state *)

Inductive FieldName : Type := Email | Username | Password | ConfirmPassword.

#[global] Instance FieldName_eq_dec : EqDecision FieldName.
Proof. solve_decision. Defined.

Definition FieldName_code (f : FieldName) : nat :=
  match f with
  | Email => 0 | Username => 1 | Password => 2 | ConfirmPassword => 3
  end%nat.

Definition FieldName_of_code (n : nat) : FieldName :=
  match n with
  | O => Email | 1 => Username | 2 => Password | _ => ConfirmPassword
  end%nat.

#[global] Instance FieldName_countable : Countable FieldName.
Proof.
  apply (inj_countable' FieldName_code FieldName_of_code).
  intros []; reflexivity.
Defined.

(** The errors object, of type [Partial<FormData>]: a property may be
    absent, or present with a string, or present with [undefined]
    (the [None] value). *)
Abbreviation ErrorState := (gmap FieldName (option JS.str)).

(** Reading a property: an absent property reads as [undefined]. *)
Definition get (errors : ErrorState) (name : FieldName) : option JS.str :=
  match errors !! name with
  | Some v => v
  | None => None
  end.

(** ToBoolean of a property value: [undefined] and the empty string
    are falsy. *)
Definition truthy (v : option JS.str) : bool :=
  match v with
  | Some s => JS.truthy s
  | None => false
  end.

(** [Object.keys] of the errors object (the order is not used). *)
Definition Object_keys (errors : ErrorState) : list FieldName :=
  (map_to_list errors).*1.

(** The state of a mounted signup view: the two state cells, the
    current route and the console output. *)
Record View : Type := mkView {
  formData : FormData;
  errors : ErrorState;
  location : JS.str;
  console : list FormData;
}.

(** The freshly mounted view. *)
Definition initial : View :=
  {| formData := mkFormData [] [] [] [];
     errors := ∅;
     location := JS.lit "/signup";
     console := [] |}.

(** [{ ...prev, [name]: value }] on the form data. *)
Definition set_field (prev : FormData) (name : FieldName) (value : JS.str)
  : FormData :=
  match name with
  | Email => mkFormData value prev.(username) prev.(password) prev.(confirmPassword)
  | Username => mkFormData prev.(email) value prev.(password) prev.(confirmPassword)
  | Password => mkFormData prev.(email) prev.(username) value prev.(confirmPassword)
  | ConfirmPassword => mkFormData prev.(email) prev.(username) prev.(password) value
  end.

(** The change handler of the four inputs; [name] and [value] are those
    of the event target. *)
Definition handleInputChange (name : FieldName) (value : JS.str) (st : View)
  : View :=
  let formData' := set_field st.(formData) name value in
  let errors' :=
    if truthy (get st.(errors) name)
    then <[name := None]> st.(errors)
    else st.(errors) in
  {| formData := formData'; errors := errors';
     location := st.(location); console := st.(console) |}.

Definition email_errors (formData : FormData) (newErrors : ErrorState)
  : ErrorState :=
  if negb (JS.truthy (JS.trim formData.(email)))
  then <[Email := Some (JS.lit "Email is required")]> newErrors
  else if negb (test re_email formData.(email))
  then <[Email := Some (JS.lit "Email is invalid")]> newErrors
  else newErrors.

Definition username_errors (formData : FormData) (newErrors : ErrorState)
  : ErrorState :=
  if negb (JS.truthy (JS.trim formData.(username)))
  then <[Username := Some (JS.lit "Username is required")]> newErrors
  else newErrors.

Definition password_errors (formData : FormData) (newErrors : ErrorState)
  : ErrorState :=
  if negb (JS.truthy formData.(password))
  then <[Password := Some (JS.lit "Password is required")]> newErrors
  else if negb (isPasswordValid (passwordCriteria formData))
  then <[Password := Some (JS.lit "Password does not meet all criteria")]> newErrors
  else newErrors.

Definition confirmPassword_errors (formData : FormData) (newErrors : ErrorState)
  : ErrorState :=
  if negb (JS.truthy formData.(confirmPassword))
  then <[ConfirmPassword := Some (JS.lit "Please confirm your password")]> newErrors
  else if JS.strict_ne formData.(password) formData.(confirmPassword)
  then <[ConfirmPassword := Some (JS.lit "Passwords do not match")]> newErrors
  else newErrors.

(** The object built by the four blocks of [validateForm], starting
    from the empty object. *)
Definition newErrors (formData : FormData) : ErrorState :=
  confirmPassword_errors formData
    (password_errors formData
      (username_errors formData
        (email_errors formData ∅))).

(** [validateForm]: the returned boolean, and the state after
    [setErrors(newErrors)]. *)
Definition validateForm (st : View) : bool * View :=
  let newErrors := newErrors st.(formData) in
  (bool_decide (List.length (Object_keys newErrors) = 0%nat),
   {| formData := st.(formData); errors := newErrors;
      location := st.(location); console := st.(console) |}).

(** [handleSubmit]: on success the form data is logged and the view
    navigates to the dashboard. *)
Definition handleSubmit (st : View) : View :=
  let (ok, st') := validateForm st in
  if ok
  then {| formData := st'.(formData); errors := st'.(errors);
          location := JS.lit "/dashboard";
          console := st'.(console) ++ [st'.(formData)] |}
  else st'.

(** The [disabled] attribute of the submit button. *)
Definition submit_disabled (st : View) : bool :=
  negb (isPasswordValid (passwordCriteria st.(formData)))
  || JS.strict_ne st.(formData).(password) st.(formData).(confirmPassword).

(** The message rendered under an input: [errors.f && <span>...]. *)
Definition shown_error (errors : ErrorState) (name : FieldName)
  : option JS.str :=
  match get errors name with
  | Some s => if JS.truthy s then Some s else None
  | None => None
  end.

(** ** The contract, in the words of the specification *)

(** The strings a pattern matches exactly. *)
Fixpoint denotes (p : pattern) (m : JS.str) : Prop :=
  match p with
  | [] => m = []
  | One a :: rest =>
      ∃ c m', m = c :: m' ∧ atom_matches a c = true ∧ denotes rest m'
  | Many a :: rest =>
      ∃ run m', m = run ++ m' ∧ run ≠ []
                ∧ Forall (λ c, atom_matches a c = true) run
                ∧ denotes rest m'
  end.

Module Spec.

(** A character in the range A-Z. *)
Definition uppercase_letter (c : N) : Prop := chr "A" <= c <= chr "Z".

(** A decimal digit 0-9. *)
Definition decimal_digit (c : N) : Prop := chr "0" <= c <= chr "9".

(** The fixed punctuation set of the criteria table (34 is the double
    quote, 92 the backslash). *)
Definition punctuation : list N :=
  JS.lit "!@#$%^&*()_+-=[]{};':" ++ [34; 92] ++ JS.lit "|,.<>/?".

(** The string contains a character with the given property. *)
Definition contains (P : N → Prop) (s : JS.str) : Prop :=
  ∃ c, c ∈ s ∧ P c.

(** Overall password validity: all five rules of the table. *)
Definition password_valid (password username : JS.str) : Prop :=
  (8 <= List.length password)%nat
  ∧ contains uppercase_letter password
  ∧ contains (λ c, c ∈ punctuation) password
  ∧ contains decimal_digit password
  ∧ (password ≠ username ∧ password ≠ [] ∧ username ≠ []).

(** Blank after trimming. *)
Definition blank (s : JS.str) : Prop := JS.trim s = [].

(** A non-empty run of non-whitespace characters. *)
Definition nonspace_run (r : JS.str) : Prop :=
  r ≠ [] ∧ Forall (λ c, JS.is_space c = false) r.

(** The loose email pattern: somewhere in the string, an at sign and a
    later dot, with a non-whitespace run before the at sign, between
    the two, and after the dot. *)
Definition loose_email (s : JS.str) : Prop :=
  ∃ pre a b c post,
    s = pre ++ a ++ [chr "@"] ++ b ++ [chr "."] ++ c ++ post
    ∧ nonspace_run a ∧ nonspace_run b ∧ nonspace_run c.

(** The character [x] occurs with a non-whitespace character on both
    sides. *)
Definition between_nonspace (x : N) (s : JS.str) : Prop :=
  ∃ pre l r post,
    s = pre ++ [l; x; r] ++ post
    ∧ JS.is_space l = false ∧ JS.is_space r = false.

(** The value of a form field, by name. *)
Definition field (name : FieldName) (formData : FormData) : JS.str :=
  match name with
  | Email => formData.(email)
  | Username => formData.(username)
  | Password => formData.(password)
  | ConfirmPassword => formData.(confirmPassword)
  end.

Inductive Criterion : Type :=
| MinLength | HasUppercase | HasSymbol | HasDigit | NotSameAsUsername.

#[global] Instance Criterion_eq_dec : EqDecision Criterion.
Proof. solve_decision. Defined.

(** The boolean of one criterion. *)
Definition criterion (c : Criterion) (pc : PasswordCriteria) : bool :=
  match c with
  | MinLength => pc.(minLength)
  | HasUppercase => pc.(hasUppercase)
  | HasSymbol => pc.(hasSymbol)
  | HasDigit => pc.(hasDigit)
  | NotSameAsUsername => pc.(notSameAsUsername)
  end.

(** The input a criterion is computed from: the password, and for the
    last criterion the username as well. *)
Definition input_of (c : Criterion) (formData : FormData) : list JS.str :=
  match c with
  | NotSameAsUsername => [formData.(password); formData.(username)]
  | _ => [formData.(password)]
  end.

(** Two-run independence at one criterion: between two runs that differ
    in the input of [c] and in no other input of the evaluator, no
    criterion other than [c] changes. *)
Definition flips_only (c : Criterion) (run1 run2 : FormData) : Prop :=
  input_of c run1 ≠ input_of c run2 →
  (c ≠ NotSameAsUsername → run1.(username) = run2.(username)) →
  ∀ c', c' ≠ c →
    criterion c' (passwordCriteria run1) = criterion c' (passwordCriteria run2).

End Spec.

(** ** Rendering and events *)



(** The class attribute of an input: the literal error when its
    property of the errors object is truthy, the empty string
    otherwise. *)
Definition input_className (errors : ErrorState) (name : FieldName) : JS.str :=
  if truthy (get errors name) then JS.lit "error" else [].

(** The events the form reacts to: a change of one of the four inputs,
    and a submit of the form. *)
Inductive Event : Type :=
| Change (name : FieldName) (value : JS.str)
| Submit.

(** The handler attached to each event. *)
Definition handle (ev : Event) (st : View) : View :=
  match ev with
  | Change name value => handleInputChange name value st
  | Submit => handleSubmit st
  end.

(** A sequence of events, handled in order. *)
Definition run (evs : list Event) (st : View) : View :=
  foldl (λ st ev, handle ev st) st evs.

(** A form the validator has nothing to say about, in the terms of the
    four blocks. *)
Definition acceptable (fd : FormData) : Prop :=
  Spec.loose_email fd.(email)
  ∧ ¬ Spec.blank fd.(username)
  ∧ Spec.password_valid fd.(password) fd.(username)
  ∧ fd.(password) = fd.(confirmPassword).

(** The string consists of whitespace only (the empty string
    included). *)
Definition all_space (s : JS.str) : Prop :=
  Forall (λ c, JS.is_space c = true) s.

(** What holds of the route and the console after any events: the
    logged forms are acceptable, and the view has left the signup route
    exactly when something was logged. *)
Definition logged_ok (st : View) : Prop :=
  Forall acceptable st.(console)
  ∧ ((st.(location) = JS.lit "/dashboard" ∧ st.(console) ≠ [])
     ∨ (st.(location) = JS.lit "/signup" ∧ st.(console) = [])).

(** The messages the validator can assign to a field. *)
Definition messages_of (name : FieldName) : list JS.str :=
  match name with
  | Email => [JS.lit "Email is required"; JS.lit "Email is invalid"]
  | Username => [JS.lit "Username is required"]
  | Password => [JS.lit "Password is required";
                 JS.lit "Password does not meet all criteria"]
  | ConfirmPassword => [JS.lit "Please confirm your password";
                        JS.lit "Passwords do not match"]
  end.

(** Every property of the errors object is undefined or a message of
    its own field. *)
Definition own_messages (errors : ErrorState) : Prop :=
  ∀ k msg, errors !! k = Some (Some msg) → msg ∈ messages_of k.

(** ** Scenarios *)

Example criteria_scenario :
  passwordCriteria (mkFormData (JS.lit "a@b.com") (JS.lit "alice")
                               (JS.lit "Abcdef1!") (JS.lit "Abcdef1!"))
  = mkPasswordCriteria true true true true true.
Proof. vm_compute. reflexivity. Qed.

Example submit_ok :
  let st := {| formData := mkFormData (JS.lit "a@b.com") (JS.lit "alice")
                               (JS.lit "Abcdef1!") (JS.lit "Abcdef1!");
               errors := ∅; location := JS.lit "/signup"; console := [] |} in
  (handleSubmit st).(location) = JS.lit "/dashboard"
  /\ (handleSubmit st).(errors) = ∅.
Proof. vm_compute. split; reflexivity. Qed.

Example submit_empty :
  (handleSubmit initial).(location) = JS.lit "/signup"
  /\ shown_error (handleSubmit initial).(errors) Email = Some (JS.lit "Email is required")
  /\ shown_error (handleSubmit initial).(errors) Username = Some (JS.lit "Username is required")
  /\ shown_error (handleSubmit initial).(errors) Password = Some (JS.lit "Password is required")
  /\ shown_error (handleSubmit initial).(errors) ConfirmPassword = Some (JS.lit "Please confirm your password").
Proof. vm_compute. repeat split; reflexivity. Qed.

(** ** What the patterns accept *)

Section Matcher.

Lemma match_here_many_cons a rest c s :
  match_here (Many a :: rest) (c :: s)
  = atom_matches a c && (match_here (Many a :: rest) s || match_here rest s).
Proof. reflexivity. Qed.

Lemma match_here_many_nil a rest : match_here (Many a :: rest) [] = false.
Proof. reflexivity. Qed.

Lemma match_here_spec (p : pattern) :
  ∀ s, match_here p s = true ↔ ∃ m t, s = m ++ t ∧ denotes p m.
Proof.
  induction p as [|[a|a] rest IH]; intros s.
  - split; [intros _; exists [], s; done | done].
  - destruct s as [|c s]; simpl.
    + split; [done|]. intros (m & t & Hs & c & m' & -> & _). discriminate.
    + rewrite andb_true_iff, IH. split.
      * intros (Hc & m & t & -> & Hm). exists (c :: m), t. split; [done|].
        exists c, m. done.
      * intros (m & t & Hs & c' & m' & -> & Hc & Hm).
        injection Hs as -> ->. split; [done|]. exists m', t. done.
  - induction s as [|c s IHs].
    + rewrite match_here_many_nil. split; [done|].
      intros (m & t & Hs & run & m' & -> & Hne & _).
      destruct run; [done | discriminate].
    + rewrite match_here_many_cons, andb_true_iff, orb_true_iff, IHs, IH.
      split.
      * intros (Hc & [(m & t & -> & run & m' & -> & Hne & Hrun & Hm)
                     |(m & t & -> & Hm)]).
        -- exists ((c :: run) ++ m'), t. split; [done|].
           exists (c :: run), m'. repeat split; [done | | done].
           by constructor.
        -- exists ([c] ++ m), t. split; [done|].
           exists [c], m. repeat split; [done | | done].
           by constructor.
      * intros (m & t & Hs & run & m' & -> & Hne & Hrun & Hm).
        destruct run as [|c' run]; [done|].
        injection Hs as -> ->. apply Forall_cons in Hrun as [Hc Hrun].
        split; [done|]. destruct run as [|c'' run].
        -- right. exists m', t. done.
        -- left. exists ((c'' :: run) ++ m'), t. split; [done|].
           exists (c'' :: run), m'. done.
Qed.

Lemma test_spec (p : pattern) (s : JS.str) :
  test p s = true ↔ ∃ pre m post, s = pre ++ m ++ post ∧ denotes p m.
Proof.
  induction s as [|c s IHs]; simpl; rewrite orb_true_iff, match_here_spec.
  - split.
    + intros [(m & t & Hs & Hm)|]; [|done]. exists [], m, t. done.
    + intros (pre & m & post & Hs & Hm). left.
      destruct pre; [|discriminate]. exists m, post. done.
  - rewrite IHs. split.
    + intros [(m & t & Hs & Hm)|(pre & m & post & -> & Hm)].
      * exists [], m, t. done.
      * exists (c :: pre), m, post. done.
    + intros (pre & m & post & Hs & Hm). destruct pre as [|c' pre].
      * left. exists m, post. done.
      * right. injection Hs as -> ->. exists pre, m, post. done.
Qed.

(** A pattern of one atom tests for the presence of a matching
    code unit. *)
Lemma test_one (a : atom) (s : JS.str) :
  test [One a] s = true ↔ ∃ c, c ∈ s ∧ atom_matches a c = true.
Proof.
  rewrite test_spec. split.
  - intros (pre & m & post & -> & c & m' & -> & Hc & _).
    exists c. split; [|done]. set_solver.
  - intros (c & Hin & Hc). apply list_elem_of_split in Hin as (pre & post & ->).
    exists pre, [c], post. split; [done|]. exists c, []. done.
Qed.

End Matcher.

(** ** The criteria against their rules *)

Section Criteria.

Lemma uppercase_class (c : N) :
  atom_matches (Class [CRange (chr "A") (chr "Z")]) c = true
  ↔ Spec.uppercase_letter c.
Proof.
  unfold Spec.uppercase_letter. simpl.
  rewrite orb_false_r, andb_true_iff, !N.leb_le. done.
Qed.

Lemma digit_class (c : N) :
  atom_matches Digit c = true ↔ Spec.decimal_digit c.
Proof.
  unfold Spec.decimal_digit. simpl.
  rewrite andb_true_iff, !N.leb_le. done.
Qed.

Lemma class_of_chars (l : list N) (c : N) :
  atom_matches (Class (CChar <$> l)) c = true ↔ c ∈ l.
Proof.
  simpl. induction l as [|d l IH]; simpl.
  - split; [done|]. by intros ?%elem_of_nil.
  - rewrite orb_true_iff, IH, N.eqb_eq, elem_of_cons. done.
Qed.

Lemma re_symbol_chars : re_symbol = [One (Class (CChar <$> Spec.punctuation))].
Proof. reflexivity. Qed.

Lemma test_uppercase (s : JS.str) :
  test re_uppercase s = true ↔ Spec.contains Spec.uppercase_letter s.
Proof.
  unfold re_uppercase, Spec.contains. rewrite test_one.
  by setoid_rewrite uppercase_class.
Qed.

Lemma test_symbol (s : JS.str) :
  test re_symbol s = true ↔ Spec.contains (λ c, c ∈ Spec.punctuation) s.
Proof.
  rewrite re_symbol_chars. unfold Spec.contains. rewrite test_one.
  by setoid_rewrite class_of_chars.
Qed.

Lemma test_digit (s : JS.str) :
  test re_digit s = true ↔ Spec.contains Spec.decimal_digit s.
Proof.
  unfold re_digit, Spec.contains. rewrite test_one.
  by setoid_rewrite digit_class.
Qed.

Lemma length_positive (s : JS.str) : (0 < JS.length s)%nat ↔ s ≠ [].
Proof. destruct s; simpl; split; (done || lia). Qed.

Lemma notSameAsUsername_spec (fd : FormData) :
  (passwordCriteria fd).(notSameAsUsername) = true
  ↔ fd.(password) ≠ fd.(username) ∧ fd.(password) ≠ [] ∧ fd.(username) ≠ [].
Proof.
  simpl. unfold JS.strict_ne.
  rewrite !andb_true_iff, !bool_decide_eq_true, !length_positive. tauto.
Qed.

Lemma isPasswordValid_and (c : PasswordCriteria) :
  isPasswordValid c
  = c.(minLength) && c.(hasUppercase) && c.(hasSymbol) && c.(hasDigit)
    && c.(notSameAsUsername).
Proof.
  unfold isPasswordValid, Object_values. simpl.
  destruct (minLength c), (hasUppercase c), (hasSymbol c), (hasDigit c),
    (notSameAsUsername c); reflexivity.
Qed.

Lemma isPasswordValid_spec (fd : FormData) :
  isPasswordValid (passwordCriteria fd) = true
  ↔ Spec.password_valid fd.(password) fd.(username).
Proof.
  rewrite isPasswordValid_and, !andb_true_iff, notSameAsUsername_spec.
  unfold Spec.password_valid. simpl.
  rewrite bool_decide_eq_true, test_uppercase, test_symbol, test_digit.
  unfold JS.length. tauto.
Qed.

Lemma valid_password_nonempty (fd : FormData) :
  isPasswordValid (passwordCriteria fd) = true → JS.truthy fd.(password) = true.
Proof.
  rewrite isPasswordValid_spec. intros (_ & _ & _ & _ & _ & Hne & _).
  by destruct (password fd).
Qed.

End Criteria.

(** ** Trimming and the email pattern *)

Section Email.

Lemma trimStart_nil_iff (s : JS.str) :
  JS.trimStart s = [] ↔ Forall (λ c, JS.is_space c = true) s.
Proof.
  induction s as [|c s IH]; simpl.
  - split; [constructor | done].
  - destruct (JS.is_space c) eqn:Hc.
    + rewrite IH, Forall_cons. tauto.
    + split; [done|]. intros [Hc' _]%Forall_cons. congruence.
Qed.

Lemma trimStart_all_space (s : JS.str) :
  Forall (λ c, JS.is_space c = true) (JS.trimStart s)
  ↔ Forall (λ c, JS.is_space c = true) s.
Proof.
  induction s as [|c s IH]; simpl; [done|].
  destruct (JS.is_space c) eqn:Hc; [|done].
  rewrite IH, Forall_cons. tauto.
Qed.

Lemma trimEnd_nil_iff (s : JS.str) :
  JS.trimEnd s = [] ↔ Forall (λ c, JS.is_space c = true) s.
Proof.
  unfold JS.trimEnd.
  rewrite <- (Forall_reverse _ s), <- trimStart_nil_iff.
  split; [|by intros ->].
  intros H. apply (f_equal reverse) in H. by rewrite reverse_involutive in H.
Qed.

(** A string trims to the empty string exactly when it consists of
    whitespace only. *)
Lemma blank_iff (s : JS.str) :
  Spec.blank s ↔ Forall (λ c, JS.is_space c = true) s.
Proof.
  unfold Spec.blank, JS.trim. by rewrite trimEnd_nil_iff, trimStart_all_space.
Qed.

Lemma truthy_trim (s : JS.str) :
  JS.truthy (JS.trim s) = false ↔ Spec.blank s.
Proof. unfold Spec.blank. by destruct (JS.trim s). Qed.

Lemma nonspace_run_iff (r : JS.str) :
  (r ≠ [] ∧ Forall (λ c, atom_matches NonSpace c = true) r)
  ↔ Spec.nonspace_run r.
Proof.
  unfold Spec.nonspace_run. simpl.
  assert (∀ c, negb (JS.is_space c) = true ↔ JS.is_space c = false) as E
    by (intros c; destruct (JS.is_space c); done).
  by setoid_rewrite E.
Qed.

Lemma test_email (s : JS.str) :
  test re_email s = true ↔ Spec.loose_email s.
Proof.
  rewrite test_spec. unfold Spec.loose_email. split.
  - intros (pre & m & post & -> & a & m1 & -> & Ha1 & Ha2
            & x & m2 & -> & Hx%N.eqb_eq & b & m3 & -> & Hb1 & Hb2
            & y & m4 & -> & Hy%N.eqb_eq & c & m5 & -> & Hc1 & Hc2 & ->).
    subst x y. exists pre, a, b, c, post.
    rewrite <- !nonspace_run_iff. rewrite app_nil_r.
    repeat split; try done. simpl. rewrite <- !app_assoc. simpl.
    by rewrite <- !app_assoc.
  - intros (pre & a & b & c & post & -> & Ha & Hb & Hc).
    apply nonspace_run_iff in Ha as [Ha1 Ha2].
    apply nonspace_run_iff in Hb as [Hb1 Hb2].
    apply nonspace_run_iff in Hc as [Hc1 Hc2].
    exists pre, (a ++ [chr "@"] ++ b ++ [chr "."] ++ c), post.
    split; [by rewrite <- !app_assoc|].
    exists a, ([chr "@"] ++ b ++ [chr "."] ++ c). repeat split; [done..|].
    exists (chr "@"), (b ++ [chr "."] ++ c). repeat split.
    exists b, ([chr "."] ++ c). repeat split; [done..|].
    exists (chr "."), c. repeat split.
    exists c, []. rewrite app_nil_r. done.
Qed.

(** A string that passes the pattern is not blank: the at sign is not
    whitespace. *)
Lemma loose_email_not_blank (s : JS.str) :
  Spec.loose_email s → ¬ Spec.blank s.
Proof.
  intros (pre & a & b & c & post & -> & _) H%blank_iff.
  rewrite !Forall_app in H. destruct H as (_ & _ & H & _).
  apply Forall_cons in H as [H _]. vm_compute in H. discriminate.
Qed.

Lemma nonspace_run_last (r : JS.str) :
  Spec.nonspace_run r → ∃ i l, r = i ++ [l] ∧ JS.is_space l = false.
Proof.
  intros [Hne Hr]. destruct r as [|l i _] using rev_ind; [done|].
  exists i, l. split; [done|].
  apply Forall_app in Hr as [_ Hl]. by apply Forall_cons in Hl as [Hl _].
Qed.

Lemma nonspace_run_first (r : JS.str) :
  Spec.nonspace_run r → ∃ h t, r = h :: t ∧ JS.is_space h = false.
Proof.
  intros [Hne Hr]. destruct r as [|h t]; [done|].
  exists h, t. split; [done|]. by apply Forall_cons in Hr as [Hh _].
Qed.

(** What the pattern requires: an at sign and a dot, each with
    non-whitespace on both sides. *)
Lemma loose_email_requires (s : JS.str) :
  Spec.loose_email s →
  Spec.between_nonspace (chr "@") s ∧ Spec.between_nonspace (chr ".") s.
Proof.
  intros (pre & a & b & c & post & -> & Ha & Hb & Hc).
  destruct (nonspace_run_last a Ha) as (ia & la & -> & Hla).
  destruct (nonspace_run_first b Hb) as (hb & tb & Eb & Hhb).
  destruct (nonspace_run_last b Hb) as (ib & lb & Eb' & Hlb).
  destruct (nonspace_run_first c Hc) as (hc & tc & -> & Hhc).
  split.
  - exists (pre ++ ia), la, hb, (tb ++ [chr "."] ++ (hc :: tc) ++ post).
    split; [|done]. rewrite Eb. by repeat (progress (rewrite <- ?app_assoc; simpl)).
  - exists (pre ++ (ia ++ [la]) ++ [chr "@"] ++ ib), lb, hc, (tc ++ post).
    split; [|done]. rewrite Eb'. by repeat (progress (rewrite <- ?app_assoc; simpl)).
Qed.

End Email.

(** ** The object built by the validator, field by field *)

Section Validator.

Ltac blocks :=
  unfold newErrors, confirmPassword_errors, password_errors,
    username_errors, email_errors;
  repeat case_match; simplify_map_eq; try done.

Lemma newErrors_Email (fd : FormData) :
  newErrors fd !! Email =
  if negb (JS.truthy (JS.trim fd.(email)))
  then Some (Some (JS.lit "Email is required"))
  else if negb (test re_email fd.(email))
  then Some (Some (JS.lit "Email is invalid"))
  else None.
Proof. blocks. Qed.

Lemma newErrors_Username (fd : FormData) :
  newErrors fd !! Username =
  if negb (JS.truthy (JS.trim fd.(username)))
  then Some (Some (JS.lit "Username is required"))
  else None.
Proof. blocks. Qed.

Lemma newErrors_Password (fd : FormData) :
  newErrors fd !! Password =
  if negb (JS.truthy fd.(password))
  then Some (Some (JS.lit "Password is required"))
  else if negb (isPasswordValid (passwordCriteria fd))
  then Some (Some (JS.lit "Password does not meet all criteria"))
  else None.
Proof. blocks. Qed.

Lemma newErrors_ConfirmPassword (fd : FormData) :
  newErrors fd !! ConfirmPassword =
  if negb (JS.truthy fd.(confirmPassword))
  then Some (Some (JS.lit "Please confirm your password"))
  else if JS.strict_ne fd.(password) fd.(confirmPassword)
  then Some (Some (JS.lit "Passwords do not match"))
  else None.
Proof. blocks. Qed.

Lemma Object_keys_empty (m : ErrorState) :
  List.length (Object_keys m) = 0%nat ↔ m = ∅.
Proof.
  unfold Object_keys. rewrite length_fmap, length_zero_iff_nil.
  apply map_to_list_empty_iff.
Qed.

Lemma validateForm_verdict (st : View) :
  (validateForm st).1 = true ↔ newErrors st.(formData) = ∅.
Proof.
  unfold validateForm. simpl. by rewrite bool_decide_eq_true, Object_keys_empty.
Qed.

Lemma validateForm_errors (st : View) :
  (validateForm st).2.(errors) = newErrors st.(formData).
Proof. reflexivity. Qed.

Lemma strict_ne_true (a b : JS.str) : JS.strict_ne a b = true ↔ a ≠ b.
Proof. unfold JS.strict_ne. by rewrite bool_decide_eq_true. Qed.

Lemma submit_disabled_cases (st : View) :
  submit_disabled st = true
  ↔ isPasswordValid (passwordCriteria st.(formData)) = false
    ∨ st.(formData).(password) ≠ st.(formData).(confirmPassword).
Proof.
  unfold submit_disabled.
  by rewrite orb_true_iff, negb_true_iff, strict_ne_true.
Qed.

(** With a disabled button the validator finds a password error or a
    confirmation error. *)
Lemma disabled_finding (st : View) :
  submit_disabled st = true →
  is_Some (newErrors st.(formData) !! Password)
  ∨ is_Some (newErrors st.(formData) !! ConfirmPassword).
Proof.
  rewrite submit_disabled_cases.
  rewrite newErrors_Password, newErrors_ConfirmPassword.
  intros [Hv | Hne].
  - left. rewrite Hv. simpl. destruct (JS.truthy _); simpl; eauto.
  - right. apply strict_ne_true in Hne. rewrite Hne.
    destruct (JS.truthy _); simpl; eauto.
Qed.

(** With an enabled button neither of the two password blocks assigns. *)
Lemma enabled_no_finding (st : View) :
  submit_disabled st = false →
  newErrors st.(formData) !! Password = None
  ∧ newErrors st.(formData) !! ConfirmPassword = None.
Proof.
  unfold submit_disabled.
  rewrite orb_false_iff, negb_false_iff. intros [Hv Heq].
  rewrite newErrors_Password, newErrors_ConfirmPassword, Hv, Heq.
  pose proof (valid_password_nonempty _ Hv) as Hp. rewrite Hp.
  apply not_true_iff_false in Heq. rewrite strict_ne_true in Heq.
  apply dec_stable in Heq. rewrite <- Heq, Hp. done.
Qed.

End Validator.

(** ** The claims *)

(** C1: for every password and username, the criteria evaluator returns
    the five booleans of the table: minLength is true iff the password
    has at least 8 characters, hasUppercase iff it contains a character
    in A-Z, hasSymbol iff it contains a character of the punctuation
    set, hasDigit iff it contains a digit 0-9, and notSameAsUsername iff
    the password differs from the username and both are non-empty. *)
Theorem passwordCriteria_table (fd : FormData) :
  let c := passwordCriteria fd in
  (c.(minLength) = true ↔ (8 <= List.length fd.(password))%nat)
  ∧ (c.(hasUppercase) = true
     ↔ Spec.contains Spec.uppercase_letter fd.(password))
  ∧ (c.(hasSymbol) = true
     ↔ Spec.contains (λ x, x ∈ Spec.punctuation) fd.(password))
  ∧ (c.(hasDigit) = true ↔ Spec.contains Spec.decimal_digit fd.(password))
  ∧ (c.(notSameAsUsername) = true
     ↔ fd.(password) ≠ fd.(username)
       ∧ fd.(password) ≠ [] ∧ fd.(username) ≠ []).
Proof.
  intros c. subst c. simpl minLength. simpl hasUppercase.
  simpl hasSymbol. simpl hasDigit.
  split; [apply bool_decide_eq_true|].
  split; [apply test_uppercase|].
  split; [apply test_symbol|].
  split; [apply test_digit|].
  apply notSameAsUsername_spec.
Qed.

(** C2: the validator gives the email field the error Email is required
    exactly when the email is blank after trimming; otherwise the error
    Email is invalid exactly when the email fails the loose pattern; an
    email that passes the pattern gets no email error.  The pattern is a
    non-whitespace run, an at sign, a non-whitespace run, a dot and a
    non-whitespace run, found anywhere in the string; it requires an at
    sign and a dot, each with non-whitespace on both sides. *)
Theorem validateForm_email (st : View) :
  let errs := (validateForm st).2.(errors) in
  let e := st.(formData).(email) in
  (errs !! Email = Some (Some (JS.lit "Email is required")) ↔ Spec.blank e)
  ∧ (errs !! Email = Some (Some (JS.lit "Email is invalid"))
     ↔ ¬ Spec.blank e ∧ ¬ Spec.loose_email e)
  ∧ (errs !! Email = None ↔ Spec.loose_email e)
  ∧ (Spec.loose_email e →
     Spec.between_nonspace (chr "@") e ∧ Spec.between_nonspace (chr ".") e).
Proof.
  intros errs e. subst errs. rewrite validateForm_errors, newErrors_Email.
  fold e.
  match goal with
  | |- ?A ∧ ?B ∧ ?C ∧ ?D =>
      enough (A ∧ B ∧ C) as (H1 & H2 & H3)
        by (split; [exact H1|]; split; [exact H2|]; split; [exact H3|];
            apply loose_email_requires)
  end. pose proof (truthy_trim e) as Hb. pose proof (test_email e) as Hp.
  pose proof (loose_email_not_blank e) as Hnb.
  destruct (JS.truthy (JS.trim e)); simpl.
  - assert (¬ Spec.blank e) as Hn by (intros H%Hb; done).
    destruct (test re_email e); simpl.
    + assert (Spec.loose_email e) as Hl by (by apply Hp).
      split; [|split]; (split; [done|]); try done.
      intros [_ Hf]. done.
    + assert (¬ Spec.loose_email e) as Hl by (intros H%Hp; done).
      split; [|split]; split; try done.
  - assert (Spec.blank e) as Hy by (by apply Hb).
    split; [|split]; split; try done.
    + by intros [].
    + intros H. by apply Hnb in H.
Qed.

(** C3: overall password validity is the logical AND of the five
    criteria booleans, and of nothing else. *)
Theorem isPasswordValid_conjunction (fd : FormData) :
  let c := passwordCriteria fd in
  isPasswordValid c
  = c.(minLength) && c.(hasUppercase) && c.(hasSymbol) && c.(hasDigit)
    && c.(notSameAsUsername).
Proof. intros c. apply isPasswordValid_and. Qed.

(** C4: the validator reports the form submittable iff the error state
    it produces is empty, and the produced error state replaces the
    previous one entirely: it is the same whatever the previous error
    state was, and the form data is left as it is. *)
Theorem validateForm_submittable_replaces (st : View) :
  ((validateForm st).1 = true ↔ (validateForm st).2.(errors) = ∅)
  ∧ (∀ prev : ErrorState,
       (validateForm (mkView st.(formData) prev st.(location) st.(console))).2
       = (validateForm st).2)
  ∧ (validateForm st).2.(formData) = st.(formData).
Proof.
  split; [|split].
  - rewrite validateForm_errors. apply validateForm_verdict.
  - intros prev. reflexivity.
  - reflexivity.
Qed.

(** C5: an edit of one field updates only that field of the form data;
    afterwards that field shows no error, every other property of the
    error state is as before, and an error state with no error for the
    field is left untouched.  Validation is not re-run: the resulting
    error state does not depend on the form data or on the typed value. *)
Theorem handleInputChange_frame (name : FieldName) (value : JS.str) (st : View) :
  let st' := handleInputChange name value st in
  Spec.field name st'.(formData) = value
  ∧ (∀ g, g ≠ name →
       Spec.field g st'.(formData) = Spec.field g st.(formData))
  ∧ shown_error st'.(errors) name = None
  ∧ (∀ g, g ≠ name → st'.(errors) !! g = st.(errors) !! g)
  ∧ (shown_error st.(errors) name = None → st'.(errors) = st.(errors))
  ∧ (∀ (fd2 : FormData) (value2 : JS.str),
       (handleInputChange name value2
          (mkView fd2 st.(errors) st.(location) st.(console))).(errors)
       = st'.(errors)).
Proof.
  intros st'. subst st'. unfold handleInputChange. simpl.
  split; [by destruct name|].
  split; [by intros g Hg; destruct name, g|].
  split.
  { unfold shown_error. destruct (truthy (get (errors st) name)) eqn:Ht.
    - unfold get. by rewrite lookup_insert_eq.
    - unfold truthy in Ht. by destruct (get (errors st) name) as [s|]; [rewrite Ht|]. }
  split.
  { intros g Hg. destruct (truthy (get (errors st) name)); [|done].
    by rewrite lookup_insert_ne. }
  split; [|done].
  unfold shown_error, truthy. destruct (get (errors st) name) as [s|]; [|done].
  by destruct (JS.truthy s).
Qed.

(** C6: the submit button is disabled iff overall password validity is
    false or the password differs from its confirmation. *)
Theorem submit_disabled_iff (st : View) :
  submit_disabled st = true
  ↔ ¬ Spec.password_valid st.(formData).(password) st.(formData).(username)
    ∨ st.(formData).(password) ≠ st.(formData).(confirmPassword).
Proof.
  rewrite submit_disabled_cases, <- isPasswordValid_spec.
  by rewrite not_true_iff_false.
Qed.

(** C7: whenever overall password validity is false or the password
    differs from its confirmation, the validator produces a non-empty
    error state and reports the form not submittable, and a submit
    neither navigates nor logs: the disabled button never suppresses a
    submission that the validator would have accepted. *)
Theorem disabled_guard_redundant (st : View) :
  ¬ Spec.password_valid st.(formData).(password) st.(formData).(username)
  ∨ st.(formData).(password) ≠ st.(formData).(confirmPassword) →
  (validateForm st).1 = false
  ∧ (validateForm st).2.(errors) ≠ ∅
  ∧ (handleSubmit st).(location) = st.(location)
  ∧ (handleSubmit st).(console) = st.(console).
Proof.
  rewrite <- isPasswordValid_spec, not_true_iff_false, <- submit_disabled_cases.
  intros Hd%disabled_finding.
  assert (newErrors st.(formData) ≠ ∅) as Hne.
  { intros E. rewrite E, !lookup_empty in Hd.
    destruct Hd as [[? ?]|[? ?]]; discriminate. }
  assert ((validateForm st).1 = false) as Hv.
  { apply not_true_iff_false. by rewrite validateForm_verdict. }
  split; [done|]. split; [done|].
  unfold handleSubmit. rewrite (surjective_pairing (validateForm st)), Hv.
  done.
Qed.

(** C8: the validator is idempotent: run again on the state it left,
    with no edit in between, it returns the same verdict and leaves the
    same error state. *)
Theorem validateForm_idempotent (st : View) :
  validateForm (validateForm st).2 = validateForm st.
Proof. reflexivity. Qed.

(** C10: when the submit button is enabled, overall password validity
    holds and the password equals its confirmation; the validator then
    assigns neither a password error nor a confirmation error, every
    property of the produced error state is the email or the username,
    and a rejected submit carries an error of one of those two fields. *)
Theorem enabled_submit_errors (st : View) :
  submit_disabled st = false →
  let errs := (validateForm st).2.(errors) in
  (Spec.password_valid st.(formData).(password) st.(formData).(username)
   ∧ st.(formData).(password) = st.(formData).(confirmPassword))
  ∧ errs !! Password = None
  ∧ errs !! ConfirmPassword = None
  ∧ (∀ k, is_Some (errs !! k) → k = Email ∨ k = Username)
  ∧ ((validateForm st).1 = false →
     is_Some (errs !! Email) ∨ is_Some (errs !! Username)).
Proof.
  intros Hd errs. subst errs. rewrite validateForm_errors.
  destruct (enabled_no_finding st Hd) as [Hp Hc].
  assert (∀ k, is_Some (newErrors (formData st) !! k) → k = Email ∨ k = Username)
    as Hk.
  { intros [] [v Hv]; eauto; congruence. }
  split.
  { rewrite <- isPasswordValid_spec. unfold submit_disabled in Hd.
    apply orb_false_iff in Hd as [Hv Hs]. apply negb_false_iff in Hv.
    split; [done|]. apply not_true_iff_false in Hs.
    rewrite strict_ne_true in Hs. by apply dec_stable in Hs. }
  split; [done|]. split; [done|]. split; [done|].
  intros Hv. apply not_true_iff_false in Hv. rewrite validateForm_verdict in Hv.
  apply map_choose in Hv as (k & v & Hkv).
  destruct (Hk k) as [-> | ->]; eauto.
Qed.

(** C9, as stated, fails: between the passwords Alice and alice, with
    the username alice in both runs, one character of the uppercase
    class is replaced and the length is kept, yet two criteria change,
    hasUppercase and notSameAsUsername. *)
Lemma criteria_not_independent :
  let run1 := mkFormData [] (JS.lit "alice") (JS.lit "Alice") [] in
  let run2 := mkFormData [] (JS.lit "alice") (JS.lit "alice") [] in
  (run1.(username) = run2.(username)
   ∧ List.length run1.(password) = List.length run2.(password))
  ∧ ((passwordCriteria run1).(hasUppercase) = true
     ∧ (passwordCriteria run2).(hasUppercase) = false)
  ∧ ((passwordCriteria run1).(notSameAsUsername) = true
     ∧ (passwordCriteria run2).(notSameAsUsername) = false)
  ∧ ¬ Spec.flips_only Spec.HasUppercase run1 run2.
Proof.
  intros run1 run2. split; [done|]. split; [done|]. split; [done|].
  intros H.
  assert (Spec.criterion Spec.NotSameAsUsername (passwordCriteria run1)
          = Spec.criterion Spec.NotSameAsUsername (passwordCriteria run2)) as E.
  { apply H; [by vm_compute | done | done]. }
  vm_compute in E. discriminate.
Qed.

(** C9, amended: between two runs with the same password, whatever the
    two usernames, minLength, hasUppercase, hasSymbol and hasDigit are
    unchanged: a change of the username can only flip
    notSameAsUsername. *)
Theorem username_change_flips_only_notSame (run1 run2 : FormData) :
  run1.(password) = run2.(password) →
  ∀ c, c ≠ Spec.NotSameAsUsername →
    Spec.criterion c (passwordCriteria run1)
    = Spec.criterion c (passwordCriteria run2).
Proof.
  intros Hp c Hc. destruct c; simpl; rewrite ?Hp; done.
Qed.

(** ** Instances *)

Lemma disabled_guard_redundant_witness :
  let st := mkView (mkFormData (JS.lit "a@b.com") (JS.lit "alice")
                               (JS.lit "Abcdef1!") (JS.lit "Abcdef2!"))
                   ∅ (JS.lit "/signup") [] in
  st.(formData).(password) ≠ st.(formData).(confirmPassword)
  ∧ (validateForm st).1 = false
  ∧ (validateForm st).2.(errors) ≠ ∅
  ∧ (handleSubmit st).(location) = st.(location)
  ∧ (handleSubmit st).(console) = st.(console).
Proof.
  intros st.
  assert (st.(formData).(password) ≠ st.(formData).(confirmPassword)) as Hne
    by (vm_compute; discriminate).
  split; [exact Hne|].
  apply (disabled_guard_redundant st). right. exact Hne.
Defined.

Lemma enabled_submit_errors_witness :
  let st := mkView (mkFormData (JS.lit "not an email") (JS.lit "bob")
                               (JS.lit "Abcdef1!") (JS.lit "Abcdef1!"))
                   ∅ (JS.lit "/signup") [] in
  submit_disabled st = false
  ∧ (validateForm st).2.(errors) !! Password = None
  ∧ (validateForm st).2.(errors) !! ConfirmPassword = None
  ∧ (validateForm st).1 = false.
Proof.
  intros st.
  assert (submit_disabled st = false) as Hd by (vm_compute; reflexivity).
  destruct (enabled_submit_errors st Hd) as (_ & Hp & Hc & _).
  split; [exact Hd|]. split; [exact Hp|]. split; [exact Hc|].
  vm_compute. reflexivity.
Defined.

Lemma username_change_flips_only_notSame_witness :
  let run1 := mkFormData [] (JS.lit "alice") (JS.lit "Abcdef1!") [] in
  let run2 := mkFormData [] (JS.lit "Abcdef1!") (JS.lit "Abcdef1!") [] in
  run1.(password) = run2.(password)
  ∧ (passwordCriteria run1).(notSameAsUsername)
    ≠ (passwordCriteria run2).(notSameAsUsername)
  ∧ (passwordCriteria run1).(hasUppercase) = (passwordCriteria run2).(hasUppercase).
Proof.
  intros run1 run2. split; [reflexivity|]. split; [vm_compute; discriminate|].
  apply (username_change_flips_only_notSame run1 run2 eq_refl Spec.HasUppercase).
  discriminate.
Defined.

(** Scenario: password and username both alice. *)
Example same_as_username_disabled :
  let st := mkView (mkFormData [] (JS.lit "alice") (JS.lit "alice") []) ∅
                   (JS.lit "/signup") [] in
  (passwordCriteria st.(formData)).(notSameAsUsername) = false
  ∧ isPasswordValid (passwordCriteria st.(formData)) = false
  ∧ submit_disabled st = true.
Proof. vm_compute. done. Qed.

(** Scenario: the confirmation differs from the password. *)
Example mismatch_blocked :
  let st := mkView (mkFormData (JS.lit "a@b.com") (JS.lit "alice")
                               (JS.lit "Abcdef1!") (JS.lit "Abcdef2!"))
                   ∅ (JS.lit "/signup") [] in
  shown_error (handleSubmit st).(errors) ConfirmPassword
    = Some (JS.lit "Passwords do not match")
  ∧ (handleSubmit st).(location) = JS.lit "/signup"
  ∧ submit_disabled st = true.
Proof. vm_compute. done. Qed.

(** The pattern on some literals: a dot before the at sign only, or
    whitespace between the two, is rejected; several at signs are
    accepted. *)
Example email_literals :
  test re_email (JS.lit "a@b.com") = true
  ∧ test re_email (JS.lit "a.b@c") = false
  ∧ test re_email (JS.lit "a@b c.d") = false
  ∧ test re_email (JS.lit "a@.b") = false
  ∧ test re_email (JS.lit "x a@@b..c y") = true.
Proof. vm_compute. done. Qed.

(** Trimming removes whitespace at both ends only. *)
Example trim_literal :
  JS.trim (JS.lit "  a b  ") = JS.lit "a b" ∧ JS.trim [0x20; 0xA0; 0x2028] = [].
Proof. vm_compute. done. Qed.

(** After an edit the property of the cleared field stays in the
    object, with the value undefined. *)
Example cleared_property_kept :
  let st := handleInputChange Email (JS.lit "a") (handleSubmit initial) in
  st.(errors) !! Email = Some None
  ∧ shown_error st.(errors) Email = None
  ∧ shown_error st.(errors) Username = Some (JS.lit "Username is required").
Proof. vm_compute. done. Qed.

(** ** Further properties of the validator *)

Section Fields.

Lemma truthy_false_nil (s : JS.str) : JS.truthy s = false ↔ s = [].
Proof. by destruct s. Qed.

Lemma strict_ne_false (a b : JS.str) : JS.strict_ne a b = false ↔ a = b.
Proof.
  rewrite <- not_true_iff_false, strict_ne_true. split.
  - apply dec_stable.
  - by intros -> ?.
Qed.

Lemma none_Email (fd : FormData) :
  newErrors fd !! Email = None ↔ Spec.loose_email fd.(email).
Proof.
  rewrite newErrors_Email.
  pose proof (truthy_trim fd.(email)) as Hb.
  pose proof (test_email fd.(email)) as Hp.
  pose proof (loose_email_not_blank fd.(email)) as Hnb.
  destruct (JS.truthy (JS.trim (email fd))); simpl.
  - destruct (test re_email (email fd)); simpl; split; try done.
    + by intros _; apply Hp.
    + by intros H%Hp.
  - split; [done|]. intros H%Hnb. destruct H. by apply Hb.
Qed.

Lemma none_Username (fd : FormData) :
  newErrors fd !! Username = None ↔ ¬ Spec.blank fd.(username).
Proof.
  rewrite newErrors_Username. pose proof (truthy_trim fd.(username)) as Hb.
  destruct (JS.truthy (JS.trim (username fd))); simpl; split; try done.
  - intros _ H%Hb. done.
  - intros H. destruct H. by apply Hb.
Qed.

Lemma none_Password (fd : FormData) :
  newErrors fd !! Password = None
  ↔ Spec.password_valid fd.(password) fd.(username).
Proof.
  rewrite newErrors_Password, <- isPasswordValid_spec.
  pose proof (valid_password_nonempty fd) as Hne.
  destruct (isPasswordValid (passwordCriteria fd)).
  - rewrite Hne by done. done.
  - destruct (JS.truthy (password fd)); simpl; split; done.
Qed.

Lemma none_ConfirmPassword (fd : FormData) :
  newErrors fd !! ConfirmPassword = None
  ↔ fd.(confirmPassword) ≠ [] ∧ fd.(password) = fd.(confirmPassword).
Proof.
  rewrite newErrors_ConfirmPassword.
  pose proof (truthy_false_nil fd.(confirmPassword)) as Hc.
  pose proof (strict_ne_false fd.(password) fd.(confirmPassword)) as He.
  destruct (JS.truthy (confirmPassword fd)); simpl.
  - assert (confirmPassword fd ≠ []) by (intros H%Hc; done).
    destruct (JS.strict_ne (password fd) (confirmPassword fd)); split; try done.
    + intros [_ H'%He]. done.
    + intros _. split; [done|]. by apply He.
  - split; [done|]. intros [H _]. destruct H. by apply Hc.
Qed.

Lemma newErrors_empty_iff (fd : FormData) :
  newErrors fd = ∅ ↔ acceptable fd.
Proof.
  unfold acceptable.
  rewrite <- none_Email, <- none_Username, <- none_Password.
  split.
  - intros E.
    assert (newErrors fd !! ConfirmPassword = None) as Hc by (by rewrite E).
    apply none_ConfirmPassword in Hc as [_ Hc].
    rewrite E, !lookup_empty. done.
  - intros (He & Hu & Hp & Hc). apply map_empty. intros []; try done.
    apply none_ConfirmPassword. split; [|done]. rewrite <- Hc.
    apply none_Password in Hp. unfold Spec.password_valid in Hp. tauto.
Qed.

End Fields.

(** X1: the validator gives the username field the error Username is
    required exactly when the username consists of whitespace only (the
    empty string included), and no error otherwise. *)
Theorem validateForm_username (st : View) :
  let errs := (validateForm st).2.(errors) in
  let u := st.(formData).(username) in
  (errs !! Username = Some (Some (JS.lit "Username is required"))
   ↔ all_space u)
  ∧ (errs !! Username = None ↔ ¬ all_space u).
Proof.
  intros errs u. subst errs. rewrite validateForm_errors.
  unfold all_space. rewrite <- blank_iff. split; [|apply none_Username].
  rewrite newErrors_Username. fold u. pose proof (truthy_trim u) as Hb.
  destruct (JS.truthy (JS.trim u)); simpl; split; try done.
  - intros H%Hb. done.
  - intros _. by apply Hb.
Qed.

(** X2: the validator gives the password field the error Password is
    required exactly when the password is the empty string (a password
    of whitespace is not trimmed); otherwise the error Password does not
    meet all criteria exactly when one of the five rules fails; and no
    error exactly when all five rules hold. *)
Theorem validateForm_password (st : View) :
  let errs := (validateForm st).2.(errors) in
  let fd := st.(formData) in
  (errs !! Password = Some (Some (JS.lit "Password is required"))
   ↔ fd.(password) = [])
  ∧ (errs !! Password
     = Some (Some (JS.lit "Password does not meet all criteria"))
     ↔ fd.(password) ≠ []
       ∧ ¬ Spec.password_valid fd.(password) fd.(username))
  ∧ (errs !! Password = None
     ↔ Spec.password_valid fd.(password) fd.(username)).
Proof.
  intros errs fd. subst errs. rewrite validateForm_errors. fold fd.
  split; [|split; [|apply none_Password]].
  - rewrite newErrors_Password. pose proof (truthy_false_nil fd.(password)) as Hp.
    destruct (JS.truthy (password fd)); simpl.
    + split; [|by intros H%Hp].
      destruct (negb _); intros H; vm_compute in H; discriminate.
    + split; [by intros _; apply Hp | done].
  - rewrite <- isPasswordValid_spec, newErrors_Password.
    pose proof (truthy_false_nil fd.(password)) as Hp.
    destruct (JS.truthy (password fd)); simpl.
    + assert (password fd ≠ []) by (intros H%Hp; done).
      destruct (isPasswordValid (passwordCriteria fd)); simpl; split; try done.
      intros [_ H']. done.
    + split; [intros H; vm_compute in H; discriminate|].
      intros [H _]. destruct H. by apply Hp.
Qed.

(** X3: the validator gives the confirmation field the error Please
    confirm your password exactly when the confirmation is the empty
    string; otherwise the error Passwords do not match exactly when it
    differs from the password; and no error exactly when it is non-empty
    and equal to the password. *)
Theorem validateForm_confirmPassword (st : View) :
  let errs := (validateForm st).2.(errors) in
  let fd := st.(formData) in
  (errs !! ConfirmPassword = Some (Some (JS.lit "Please confirm your password"))
   ↔ fd.(confirmPassword) = [])
  ∧ (errs !! ConfirmPassword = Some (Some (JS.lit "Passwords do not match"))
     ↔ fd.(confirmPassword) ≠ [] ∧ fd.(password) ≠ fd.(confirmPassword))
  ∧ (errs !! ConfirmPassword = None
     ↔ fd.(confirmPassword) ≠ [] ∧ fd.(password) = fd.(confirmPassword)).
Proof.
  intros errs fd. subst errs. rewrite validateForm_errors. fold fd.
  split; [|split; [|apply none_ConfirmPassword]].
  - rewrite newErrors_ConfirmPassword.
    pose proof (truthy_false_nil fd.(confirmPassword)) as Hc.
    destruct (JS.truthy (confirmPassword fd)); simpl.
    + split; [|by intros H%Hc].
      destruct (JS.strict_ne _ _); intros H; vm_compute in H; discriminate.
    + split; [by intros _; apply Hc | done].
  - rewrite newErrors_ConfirmPassword.
    pose proof (truthy_false_nil fd.(confirmPassword)) as Hc.
    pose proof (strict_ne_true fd.(password) fd.(confirmPassword)) as Hn.
    destruct (JS.truthy (confirmPassword fd)); simpl.
    + assert (confirmPassword fd ≠ []) by (intros H%Hc; done).
      destruct (JS.strict_ne (password fd) (confirmPassword fd)); split; try done.
      * intros _. split; [done|]. by apply Hn.
      * intros [_ H'%Hn]. done.
    + split; [intros H; vm_compute in H; discriminate|].
      intros [H _]. destruct H. by apply Hc.
Qed.

(** X4: the validator accepts a form exactly when the email passes the
    loose pattern, the username is not blank, the password meets all
    five rules and the confirmation equals the password. *)
Theorem validateForm_accepts_iff (st : View) :
  (validateForm st).1 = true ↔ acceptable st.(formData).
Proof. rewrite validateForm_verdict. apply newErrors_empty_iff. Qed.

(** ** Submitting, displaying and editing *)

Section Handlers.

Lemma newErrors_own_messages (fd : FormData) : own_messages (newErrors fd).
Proof.
  intros k msg. destruct k.
  - rewrite newErrors_Email. repeat case_match; intros [= <-]; set_solver.
  - rewrite newErrors_Username. repeat case_match; intros [= <-]; set_solver.
  - rewrite newErrors_Password. repeat case_match; intros [= <-]; set_solver.
  - rewrite newErrors_ConfirmPassword.
    repeat case_match; intros [= <-]; set_solver.
Qed.

Lemma newErrors_defined (fd : FormData) (k : FieldName) (v : option JS.str) :
  newErrors fd !! k = Some v → ∃ msg, v = Some msg ∧ JS.truthy msg = true.
Proof.
  destruct k.
  - rewrite newErrors_Email. repeat case_match; intros [= <-]; eauto.
  - rewrite newErrors_Username. repeat case_match; intros [= <-]; eauto.
  - rewrite newErrors_Password. repeat case_match; intros [= <-]; eauto.
  - rewrite newErrors_ConfirmPassword. repeat case_match; intros [= <-]; eauto.
Qed.

Lemma shown_error_lookup (errs : ErrorState) (k : FieldName) (msg : JS.str) :
  shown_error errs k = Some msg
  ↔ errs !! k = Some (Some msg) ∧ JS.truthy msg = true.
Proof.
  unfold shown_error, get. destruct (errs !! k) as [[s|]|]; try (split; [done|]).
  - destruct (JS.truthy s) eqn:Hs; split.
    + by intros [= <-].
    + by intros [[= <-] _].
    + done.
    + intros [[= <-] Ht]. congruence.
  - by intros [? _].
  - by intros [? _].
Qed.

Lemma input_className_shown (errs : ErrorState) (k : FieldName) :
  input_className errs k = JS.lit "error" ↔ is_Some (shown_error errs k).
Proof.
  unfold input_className, shown_error, truthy.
  destruct (get errs k) as [s|].
  - destruct (JS.truthy s); split; try done;
      first [ by intros _; eauto | by intros [? ?] ].
  - split; [done | by intros [? ?]].
Qed.

Lemma handleSubmit_rejected (st : View) :
  (validateForm st).1 = false → handleSubmit st = (validateForm st).2.
Proof.
  intros Hv. unfold handleSubmit.
  by rewrite (surjective_pairing (validateForm st)), Hv.
Qed.

Lemma handleSubmit_accepted (st : View) :
  (validateForm st).1 = true →
  handleSubmit st
  = mkView st.(formData) ∅ (JS.lit "/dashboard") (st.(console) ++ [st.(formData)]).
Proof.
  intros Hv. unfold handleSubmit.
  rewrite (surjective_pairing (validateForm st)), Hv. simpl.
  apply validateForm_verdict in Hv. by rewrite Hv.
Qed.

Lemma get_insert_ne (errs : ErrorState) (n k : FieldName) (v : option JS.str) :
  n ≠ k → get (<[n := v]> errs) k = get errs k.
Proof. intros H. unfold get. by rewrite lookup_insert_ne. Qed.

Lemma get_insert_eq (errs : ErrorState) (n : FieldName) (v : option JS.str) :
  get (<[n := v]> errs) n = v.
Proof. unfold get. by rewrite lookup_insert_eq. Qed.

Lemma set_field_commute (fd : FormData) (n n' : FieldName) (v v' : JS.str) :
  n ≠ n' →
  set_field (set_field fd n' v') n v = set_field (set_field fd n v) n' v'.
Proof. by destruct n, n'. Qed.

Lemma set_field_overwrite (fd : FormData) (n : FieldName) (v v' : JS.str) :
  set_field (set_field fd n v) n v' = set_field fd n v'.
Proof. by destruct n. Qed.

Lemma handle_logged_ok (ev : Event) (st : View) :
  logged_ok st → logged_ok (handle ev st).
Proof.
  intros [Hc Hl]. destruct ev as [name value|]; simpl.
  - done.
  - destruct ((validateForm st).1) eqn:Hv.
    + rewrite handleSubmit_accepted by done. split; simpl.
      * apply Forall_app. split; [done|]. constructor; [|constructor].
        by apply newErrors_empty_iff, validateForm_verdict.
      * left. split; [done|]. by destruct (console st).
    + rewrite handleSubmit_rejected by done. done.
Qed.

Lemma handle_own_messages (ev : Event) (st : View) :
  own_messages st.(errors) → own_messages (handle ev st).(errors).
Proof.
  intros Ho. destruct ev as [name value|]; simpl.
  - destruct (truthy (get (errors st) name)); [|done].
    intros k msg. destruct (decide (name = k)) as [->|Hne].
    + by rewrite lookup_insert_eq.
    + rewrite lookup_insert_ne by done. apply Ho.
  - destruct ((validateForm st).1) eqn:Hv.
    + rewrite handleSubmit_accepted by done. simpl. intros k msg.
      by rewrite lookup_empty.
    + rewrite handleSubmit_rejected by done. apply newErrors_own_messages.
Qed.

Lemma run_preserves (P : View → Prop) :
  (∀ ev st, P st → P (handle ev st)) →
  ∀ evs st, P st → P (run evs st).
Proof.
  intros Hstep evs. induction evs as [|ev evs IH]; intros st HP; [done|].
  simpl. apply IH, Hstep, HP.
Qed.

End Handlers.

(** X5: a submit never changes the form data.  When the form is
    acceptable the view moves to the dashboard route, the form data is
    appended to the console as typed, and the error state is emptied;
    otherwise the route and the console stay as they are and the error
    state becomes the non-empty object built by the validator. *)
Theorem handleSubmit_outcome (st : View) :
  (handleSubmit st).(formData) = st.(formData)
  ∧ (acceptable st.(formData) →
     handleSubmit st
     = mkView st.(formData) ∅ (JS.lit "/dashboard")
              (st.(console) ++ [st.(formData)]))
  ∧ (¬ acceptable st.(formData) →
     handleSubmit st
     = mkView st.(formData) (newErrors st.(formData)) st.(location) st.(console)
     ∧ newErrors st.(formData) ≠ ∅).
Proof.
  split; [|split].
  - destruct ((validateForm st).1) eqn:Hv.
    + by rewrite handleSubmit_accepted.
    + by rewrite handleSubmit_rejected.
  - intros Ha. apply handleSubmit_accepted.
    by apply validateForm_verdict, newErrors_empty_iff.
  - intros Hn. rewrite <- newErrors_empty_iff in Hn. split; [|done].
    apply handleSubmit_rejected, not_true_iff_false.
    by rewrite validateForm_verdict.
Qed.

(** X6: in the error state left by the validator, a field has a
    property exactly when a message is displayed under its input,
    exactly when the input carries the class error; and a rejected
    form displays a message under at least one input. *)
Theorem validator_display (st : View) (k : FieldName) :
  let errs := (validateForm st).2.(errors) in
  (is_Some (errs !! k) ↔ is_Some (shown_error errs k))
  ∧ (is_Some (shown_error errs k) ↔ input_className errs k = JS.lit "error")
  ∧ ((validateForm st).1 = false →
     ∃ k' msg, shown_error errs k' = Some msg).
Proof.
  intros errs. subst errs. rewrite validateForm_errors.
  assert (∀ j, is_Some (newErrors (formData st) !! j)
               → is_Some (shown_error (newErrors (formData st)) j)) as Hs.
  { intros j [v Hv]. destruct (newErrors_defined _ _ _ Hv) as (msg & -> & Ht).
    exists msg. by apply shown_error_lookup. }
  split; [|split].
  - split; [apply Hs|]. intros [msg [Hm _]%shown_error_lookup]. eauto.
  - symmetry. apply input_className_shown.
  - intros Hv. apply not_true_iff_false in Hv.
    rewrite validateForm_verdict in Hv.
    apply map_choose in Hv as (j & v & Hj).
    destruct (Hs j) as [msg Hm]; eauto.
Qed.

(** X7: edits of two different fields commute: the resulting form data
    and error state do not depend on the order of the two changes. *)
Theorem handleInputChange_commute
    (name name' : FieldName) (value value' : JS.str) (st : View) :
  name ≠ name' →
  handleInputChange name value (handleInputChange name' value' st)
  = handleInputChange name' value' (handleInputChange name value st).
Proof.
  intros Hne. unfold handleInputChange. simpl.
  rewrite (set_field_commute _ name name') by done. f_equal.
  destruct (truthy (get (errors st) name)) eqn:H1,
           (truthy (get (errors st) name')) eqn:H2;
    rewrite ?get_insert_ne, ?H1, ?H2 by done; try done.
  by apply insert_insert_ne.
Qed.

(** X8: two edits of the same field amount to the second one alone. *)
Theorem handleInputChange_overwrite
    (name : FieldName) (value value' : JS.str) (st : View) :
  handleInputChange name value' (handleInputChange name value st)
  = handleInputChange name value' st.
Proof.
  unfold handleInputChange. simpl. rewrite set_field_overwrite. f_equal.
  destruct (truthy (get (errors st) name)) eqn:H1.
  - by rewrite get_insert_eq.
  - by rewrite H1.
Qed.

(** X9: after any sequence of change and submit events on a freshly
    mounted view, every form logged to the console is acceptable, and
    the view is on the dashboard route exactly when something was
    logged and on the signup route exactly when nothing was. *)
Theorem run_logged_acceptable (evs : list Event) :
  let st := run evs initial in
  (∀ fd, fd ∈ st.(console) → acceptable fd)
  ∧ (st.(location) = JS.lit "/dashboard" ↔ st.(console) ≠ [])
  ∧ (st.(location) = JS.lit "/signup" ↔ st.(console) = []).
Proof.
  intros st.
  assert (logged_ok st) as [Hc Hl].
  { apply (run_preserves logged_ok handle_logged_ok).
    split; [constructor|]. right. done. }
  split; [by apply Forall_forall|].
  destruct Hl as [[Hl Hn]|[Hl Hn]]; rewrite Hl.
  - split; split; try done; intros H; vm_compute in H; discriminate.
  - split; split; try done; intros H; vm_compute in H; discriminate.
Qed.

(** X10: after any sequence of change and submit events on a freshly
    mounted view, a message displayed under an input is one of the
    messages the validator assigns to that very field. *)
Theorem run_shows_own_messages (evs : list Event) (k : FieldName) :
  match shown_error (run evs initial).(errors) k with
  | Some msg => msg ∈ messages_of k
  | None => True
  end.
Proof.
  assert (own_messages (run evs initial).(errors)) as Ho.
  { apply (run_preserves (λ st, own_messages st.(errors)) handle_own_messages).
    intros j msg. simpl. by rewrite lookup_empty. }
  destruct (shown_error _ k) as [msg|] eqn:E; [|done].
  apply shown_error_lookup in E as [E _]. by apply Ho.
Qed.

Lemma handleInputChange_commute_witness :
  let st := handleSubmit initial in
  Email ≠ Username
  ∧ handleInputChange Email (JS.lit "a") (handleInputChange Username (JS.lit "b") st)
    = handleInputChange Username (JS.lit "b") (handleInputChange Email (JS.lit "a") st).
Proof.
  intros st. split; [discriminate|].
  apply (handleInputChange_commute Email Username). discriminate.
Defined.

(** ** The requirements list, unanchored patterns and trimming *)

Section Patterns.


Lemma test_extend (p : pattern) (pre s post : JS.str) :
  test p s = true → test p (pre ++ s ++ post) = true.
Proof.
  rewrite !test_spec. intros (pre' & m & post' & -> & Hm).
  exists (pre ++ pre'), m, (post' ++ post). split; [|done].
  by rewrite <- !app_assoc.
Qed.

Lemma trimStart_split (s : JS.str) :
  ∃ pre, s = pre ++ JS.trimStart s ∧ all_space pre.
Proof.
  induction s as [|c s (pre & E & Hpre)]; simpl.
  - exists []. split; [done | constructor].
  - destruct (JS.is_space c) eqn:Hc.
    + exists (c :: pre). split; [by rewrite E at 1 | by constructor].
    + exists []. split; [done | constructor].
Qed.

Lemma trimStart_head (s : JS.str) (c : N) (t : JS.str) :
  JS.trimStart s = c :: t → JS.is_space c = false.
Proof.
  induction s as [|d s IH]; simpl; [done|].
  destruct (JS.is_space d) eqn:Hd; [done|]. by intros [= <- _].
Qed.

Lemma trimEnd_split (s : JS.str) :
  ∃ post, s = JS.trimEnd s ++ post ∧ all_space post.
Proof.
  destruct (trimStart_split (reverse s)) as (pre & E & Hpre).
  exists (reverse pre). split; [|by apply Forall_reverse].
  unfold JS.trimEnd. rewrite <- reverse_app, <- E. by rewrite reverse_involutive.
Qed.

Lemma trimEnd_last (s i : JS.str) (l : N) :
  JS.trimEnd s = i ++ [l] → JS.is_space l = false.
Proof.
  unfold JS.trimEnd. intros H. apply (f_equal reverse) in H.
  rewrite reverse_involutive, reverse_app in H. simpl in H.
  by apply trimStart_head in H.
Qed.

Lemma trimEnd_head (s : JS.str) (c : N) (t : JS.str) :
  (∀ d u, s = d :: u → JS.is_space d = false) →
  JS.trimEnd s = c :: t → JS.is_space c = false.
Proof.
  intros Hs H. destruct (trimEnd_split s) as (post & E & _).
  rewrite H in E. by apply (Hs c (t ++ post)).
Qed.

End Patterns.


(** X12: the email pattern is not anchored: an email that gets no
    error still gets none when any text, whitespace included, is put
    before and after it. *)
Theorem email_accepted_inside (fd : FormData) (pre post : JS.str) :
  newErrors fd !! Email = None →
  newErrors (set_field fd Email (pre ++ fd.(email) ++ post)) !! Email = None.
Proof.
  rewrite !none_Email, <- !test_email. simpl. apply test_extend.
Qed.

(** X13: putting characters before and after a password never un-meets
    minLength, hasUppercase, hasSymbol or hasDigit. *)
Theorem criteria_kept_by_extension (fd : FormData) (pre post : JS.str) :
  let c := passwordCriteria fd in
  let c' := passwordCriteria (set_field fd Password (pre ++ fd.(password) ++ post)) in
  (c.(minLength) = true → c'.(minLength) = true)
  ∧ (c.(hasUppercase) = true → c'.(hasUppercase) = true)
  ∧ (c.(hasSymbol) = true → c'.(hasSymbol) = true)
  ∧ (c.(hasDigit) = true → c'.(hasDigit) = true).
Proof.
  intros c c'. subst c c'. simpl.
  split; [|split; [|split]]; try apply test_extend.
  rewrite !bool_decide_eq_true. unfold JS.length. rewrite !length_app. lia.
Qed.

(** X14: which errors an edit can change at the next validation: an
    edit of the email only the email error, an edit of the username
    only the username and password errors, an edit of the password only
    the password and confirmation errors, an edit of the confirmation
    only the confirmation error. *)
Theorem validator_dependencies (fd : FormData) (value : JS.str) (k : FieldName) :
  (k ≠ Email → newErrors (set_field fd Email value) !! k = newErrors fd !! k)
  ∧ (k ≠ Username → k ≠ Password →
     newErrors (set_field fd Username value) !! k = newErrors fd !! k)
  ∧ (k ≠ Password → k ≠ ConfirmPassword →
     newErrors (set_field fd Password value) !! k = newErrors fd !! k)
  ∧ (k ≠ ConfirmPassword →
     newErrors (set_field fd ConfirmPassword value) !! k = newErrors fd !! k).
Proof.
  destruct k; (split; [|split; [|split]]); intros; try done;
    rewrite ?newErrors_Email, ?newErrors_Username, ?newErrors_Password,
      ?newErrors_ConfirmPassword; done.
Qed.

(** X15: trimming removes a run of whitespace at each end and nothing
    else: the string is a whitespace run, the trimmed string and a
    whitespace run, and the trimmed string neither starts nor ends with
    whitespace. *)
Theorem trim_decomposition (s : JS.str) :
  (∃ pre post, s = pre ++ JS.trim s ++ post ∧ all_space pre ∧ all_space post)
  ∧ (∀ c t, JS.trim s = c :: t → JS.is_space c = false)
  ∧ (∀ i l, JS.trim s = i ++ [l] → JS.is_space l = false).
Proof.
  unfold JS.trim. split; [|split].
  - destruct (trimStart_split s) as (pre & E & Hpre).
    destruct (trimEnd_split (JS.trimStart s)) as (post & E' & Hpost).
    exists pre, post. split; [|done]. by rewrite <- E', <- E.
  - intros c t. apply trimEnd_head. intros d u. apply trimStart_head.
  - apply trimEnd_last.
Qed.

Lemma email_accepted_inside_witness :
  let fd := mkFormData (JS.lit "a@b.com") [] [] [] in
  newErrors fd !! Email = None
  ∧ newErrors (set_field fd Email (JS.lit "hello " ++ fd.(email) ++ JS.lit " world"))
    !! Email = None.
Proof.
  intros fd.
  assert (newErrors fd !! Email = None) as H by (vm_compute; reflexivity).
  split; [exact H|].
  exact (email_accepted_inside fd (JS.lit "hello ") (JS.lit " world") H).
Defined.

(** The dependencies of the validator are real: an edit of the username
    alone can raise the password error. *)
Example username_edit_raises_password_error :
  let fd := mkFormData [] (JS.lit "alice") (JS.lit "Abcdef1!") [] in
  newErrors fd !! Password = None
  ∧ newErrors (set_field fd Username (JS.lit "Abcdef1!")) !! Password
    = Some (Some (JS.lit "Password does not meet all criteria")).
Proof. vm_compute. done. Qed.
